(** * Tic-tac-toe with move history (src/src/App.tsx)

    A shallow embedding of the game logic of [App.tsx]: the pure
    evaluators [calculateWinner], [calculateTurns] and [calculateStatus],
    the zustand store with its two setters, the click handler of [Board]
    and the two handlers of [Game].

    The file [App.tsx] holds two listings of the application.  The first
    builds the store with zustand's [combine] middleware, the second with
    an explicit [GameState & GameActions] type.  They differ in the way
    [calculateWinner] walks the table of lines and in the text of
    [calculateStatus]; everything else is the same code.  The parts that
    differ live in the modules [Combine] (first listing) and [Typed]
    (second listing). *)

From Stdlib Require Import ZArith Bool Lia.
From stdpp Require Import base list strings pretty.

Open Scope Z_scope.

(** ** JavaScript values held by a square *)

(** A square has the TypeScript type [string | null]; reading an array
    past its end, or at a hole, gives [undefined]. *)
Inductive jsval : Type :=
  | Undefined
  | Null
  | Str (s : string).

#[global] Instance jsval_eq_dec : EqDecision jsval.
Proof. solve_decision. Defined.

(** JavaScript truthiness: [undefined], [null] and the empty string are
    falsy, every other string is truthy. *)
Definition truthy (v : jsval) : bool :=
  match v with
  | Str EmptyString => false
  | Str _ => true
  | _ => false
  end.

(** The operator [===] on these values. *)
Definition strict_eq (u v : jsval) : bool := bool_decide (u = v).

(** What a template literal [`${v}`] prints. *)
Definition template (v : jsval) : string :=
  match v with
  | Undefined => "undefined"
  | Null => "null"
  | Str s => s
  end.

(** ** Arrays of squares *)

(** An array is the list of its slots; a slot holding [Undefined] is a
    hole (the element type [string | null] has no [undefined] of its own). *)
Abbreviation squares_t := (list jsval).

(** [squares[i]] *)
Definition aget (squares : squares_t) (i : nat) : jsval :=
  default Undefined (squares !! i).

(** [squares[i] = v] on a copy: inside the array the slot is replaced,
    past its end JavaScript grows the array and leaves holes between the
    old end and the new slot. *)
Definition aset (squares : squares_t) (i : nat) (v : jsval) : squares_t :=
  if decide (i < length squares)%nat
  then <[i:=v]> squares
  else squares ++ replicate (i - length squares) Undefined ++ [v].

(** [squares.slice(0, e)] for an integer [e]: a negative [e] counts from
    the end of the array, and the bound is clamped to the array. *)
Definition slice0 {A : Type} (l : list A) (e : Z) : list A :=
  let len := Z.of_nat (length l) in
  let k := if e <? 0 then Z.max (len + e) 0 else Z.min e len in
  take (Z.to_nat k) l.

(** A line of the board: three cell indices. *)
Definition line : Type := (nat * nat * nat)%type.

(** The test of the loop body of [calculateWinner]:
    [squares[a] && squares[a] === squares[b] && squares[a] === squares[c]]. *)
Definition line_wins (squares : squares_t) (l : line) : bool :=
  let '(a, b, c) := l in
  truthy (aget squares a)
  && strict_eq (aget squares a) (aget squares b)
  && strict_eq (aget squares a) (aget squares c).

(** The value returned from inside the loop: [squares[a]]. *)
Definition line_head (squares : squares_t) (l : line) : jsval :=
  let '(a, _, _) := l in aget squares a.

(** [squares.filter((square) => square !== null).length]; [filter] skips
    holes. *)
Definition calculateTurns (squares : squares_t) : Z :=
  Z.of_nat
    (length
       (List.filter
          (fun square =>
             negb (strict_eq square Undefined) && negb (strict_eq square Null))
          squares)).

(** ** First listing: store built with [combine] *)

Module Combine.

(** The local constant [lines] of [calculateWinner]. *)
Definition lines : list line :=
  [ (0, 1, 2); (3, 4, 5); (6, 7, 8);
    (0, 3, 6); (1, 4, 7); (2, 5, 8);
    (0, 4, 8); (2, 4, 6) ]%nat.

(** [for (let i = 0; i < lines.length; i++) { ... }]: [todo] counts the
    iterations that remain, [i] is the loop variable. *)
Fixpoint winner_loop (squares : squares_t) (todo i : nat) : jsval :=
  match todo with
  | O => Null
  | S todo' =>
      let l := nth i lines (0, 0, 0)%nat in
      if line_wins squares l
      then line_head squares l
      else winner_loop squares todo' (S i)
  end.

Definition calculateWinner (squares : squares_t) : jsval :=
  winner_loop squares (length lines) 0.

(** [if (!winner && !turns) return "Draw"; if (winner) return
    `Winner: ${winner}`; return `Next player: ${player}`;] *)
Definition calculateStatus (winner : jsval) (turns : Z) (player : string)
  : string :=
  if negb (truthy winner) && (turns =? 0) then "Draw"
  else if truthy winner then "Winner: " +:+ template winner
  else "Next player: " +:+ player.

End Combine.

(** ** Second listing: store with an explicit state type *)

Module Typed.

(** The module constant [WINNING_LINES]. *)
Definition WINNING_LINES : list line :=
  [ (0, 1, 2); (3, 4, 5); (6, 7, 8);
    (0, 3, 6); (1, 4, 7); (2, 5, 8);
    (0, 4, 8); (2, 4, 6) ]%nat.

(** [for (const [a, b, c] of WINNING_LINES) { ... } return null;] *)
Fixpoint first_win (squares : squares_t) (ls : list line) : jsval :=
  match ls with
  | [] => Null
  | l :: ls' =>
      if line_wins squares l
      then line_head squares l
      else first_win squares ls'
  end.

Definition calculateWinner (squares : squares_t) : jsval :=
  first_win squares WINNING_LINES.

(** [if (winner) return `Winner: ${winner}`; if (turns === 9) return
    "Draw"; return `Next player: ${player}`;] *)
Definition calculateStatus (winner : jsval) (turns : Z) (player : string)
  : string :=
  if truthy winner then "Winner: " +:+ template winner
  else if turns =? 9 then "Draw"
  else "Next player: " +:+ player.

End Typed.

(** ** The store *)

(** The state part of the zustand store. *)
Record GameState : Type := mkGameState {
  history : list squares_t;
  currentMove : Z
}.

(** [{ history: [Array(9).fill(null)], currentMove: 0 }] *)
Definition initialState : GameState :=
  {| history := [replicate 9 Null]; currentMove := 0 |}.

(** [setHistory(nextHistory)]: the argument is a value ([inl]) or an
    updater function ([inr], the branch [typeof nextHistory ===
    "function"]); [set] merges the new field into the state. *)
Definition setHistory
    (nextHistory : list squares_t + (list squares_t -> list squares_t))
    (state : GameState) : GameState :=
  {| history := match nextHistory with
                | inr f => f (history state)
                | inl h => h
                end;
     currentMove := currentMove state |}.

(** [setCurrentMove(nextCurrentMove)], value or updater alike. *)
Definition setCurrentMove (nextCurrentMove : Z + (Z -> Z))
    (state : GameState) : GameState :=
  {| history := history state;
     currentMove := match nextCurrentMove with
                    | inr f => f (currentMove state)
                    | inl m => m
                    end |}.

(** ** The component [Board] *)

(** [const player = xIsNext ? "X" : "O"] *)
Definition player_of (xIsNext : bool) : string :=
  if xIsNext then "X" else "O".

(** [handleClick(i)].  [None]: the handler returned at its guard and
    [onPlay] was not called; [Some nextSquares]: it called
    [onPlay(nextSquares)].  Both listings compute [winner] with their own
    [calculateWinner]; the two are one function (lemma
    [calculateWinner_listings] below). *)
Definition handleClick (xIsNext : bool) (squares : squares_t) (i : nat)
  : option squares_t :=
  let winner := Combine.calculateWinner squares in
  let player := player_of xIsNext in
  if truthy (aget squares i) || truthy winner then None
  else Some (aset squares i (Str player)).

(** The status line that [Board] renders, in each listing. *)
Definition status1 (xIsNext : bool) (squares : squares_t) : string :=
  Combine.calculateStatus (Combine.calculateWinner squares)
    (calculateTurns squares) (player_of xIsNext).

Definition status2 (xIsNext : bool) (squares : squares_t) : string :=
  Typed.calculateStatus (Typed.calculateWinner squares)
    (calculateTurns squares) (player_of xIsNext).

(** ** The component [Game] *)

(** [const xIsNext = currentMove % 2 === 0]; the remainder of [%] has the
    sign of the dividend, as [Z.rem]. *)
Definition xIsNext (state : GameState) : bool :=
  Z.rem (currentMove state) 2 =? 0.

(** [const currentSquares = history[currentMove]]; [None] is
    [undefined]. *)
Definition currentSquares (state : GameState) : option squares_t :=
  if 0 <=? currentMove state
  then history state !! Z.to_nat (currentMove state)
  else None.

(** [handlePlay(nextSquares)] *)
Definition handlePlay (state : GameState) (nextSquares : squares_t)
  : GameState :=
  let nextHistory :=
    slice0 (history state) (currentMove state + 1) ++ [nextSquares] in
  setCurrentMove (inl (Z.of_nat (length nextHistory) - 1))
    (setHistory (inl nextHistory) state).

(** [jumpTo(nextMove)] *)
Definition jumpTo (state : GameState) (nextMove : Z) : GameState :=
  setCurrentMove (inl nextMove) state.

(** A click on the square [i] of the rendered board.  When
    [history[currentMove]] is [undefined] the render of [Board] throws in
    [calculateWinner] and no square exists: [None]. *)
Definition squareClick (state : GameState) (i : nat) : option GameState :=
  match currentSquares state with
  | None => None
  | Some squares =>
      Some match handleClick (xIsNext state) squares i with
           | None => state
           | Some nextSquares => handlePlay state nextSquares
           end
  end.

(** The events the rendered page offers: one button per slot of the
    displayed board ([squares.map]) and one button per entry of the
    history ([history.map]). *)
Inductive ui_step : GameState -> GameState -> Prop :=
  | ui_click state squares i state' :
      currentSquares state = Some squares ->
      (i < length squares)%nat ->
      squareClick state i = Some state' ->
      ui_step state state'
  | ui_jump state index :
      (index < length (history state))%nat ->
      ui_step state (jumpTo state (Z.of_nat index)).

(** The states the page can reach from the initial store. *)
Inductive reachable : GameState -> Prop :=
  | reach_init : reachable initialState
  | reach_step state state' :
      reachable state -> ui_step state state' -> reachable state'.

(** The invariant of the data model: a non-empty history and an index
    inside it. *)
Definition state_ok (state : GameState) : Prop :=
  (1 <= length (history state))%nat
  /\ 0 <= currentMove state < Z.of_nat (length (history state)).

(** Clicks in a row, as far as the page renders. *)
Fixpoint clicks (state : GameState) (cells : list nat) : option GameState :=
  match cells with
  | [] => Some state
  | i :: cells' =>
      match squareClick state i with
      | None => None
      | Some state' => clicks state' cells'
      end
  end.

(** ** The vocabulary of the specification *)

(** A marker: a non-empty string such as ["X"] or ["O"]. *)
Definition marker (v : jsval) : Prop :=
  exists s, v = Str s /\ s <> EmptyString.

(** The three cells of the line all hold the marker [m]. *)
Definition line_filled (squares : squares_t) (l : line) (m : string) : Prop :=
  let '(a, b, c) := l in
  m <> EmptyString
  /\ aget squares a = Str m
  /\ aget squares b = Str m
  /\ aget squares c = Str m.

(** A board of the data model: nine cells, each empty or holding one of
    the two markers. *)
Definition board_ok (squares : squares_t) : Prop :=
  length squares = 9%nat
  /\ Forall (fun v => v = Null \/ v = Str "X" \/ v = Str "O") squares.

(** The rows, columns and diagonals of the 3x3 grid, cells numbered row
    by row. *)
Definition rows : list line :=
  List.map (fun r => (3 * r, 3 * r + 1, 3 * r + 2)%nat) [0; 1; 2]%nat.
Definition columns : list line :=
  List.map (fun c => (c, c + 3, c + 6)%nat) [0; 1; 2]%nat.
Definition diagonals : list line := [(0, 4, 8); (2, 4, 6)]%nat.

(** ** Boards used in the examples *)

Abbreviation X := (Str "X").
Abbreviation O := (Str "O").

(** Both players own a row: ["X"] the top one, ["O"] the middle one. *)
Definition two_rows : squares_t := [X; X; X; O; O; O; Null; Null; Null].

(** ["O"] owns the middle row and nobody the top one. *)
Definition middle_row : squares_t := [X; Null; X; O; O; O; Null; X; Null].

(** A full board without a line. *)
Definition drawn : squares_t := [X; O; X; X; O; O; O; X; X].

(** The empty board, [Array(9).fill(null)]. *)
Definition empty_board : squares_t := replicate 9 Null.

(** A game played to a draw: the nine clicks fill the board [drawn]. *)
Definition drawn_game : list nat := [0; 1; 2; 4; 3; 5; 7; 6; 8]%nat.

(** A game with a winner: ["X"] takes the top row in three
    moves. *)
Definition top_row_game : list nat := [0; 3; 1; 4; 2]%nat.

(** A game of five moves without a winner. *)
Definition five_moves : list nat := [0; 1; 2; 3; 4]%nat.

(** ** The buttons of the history *)

(** The label of a history button:
    [historyIndex > 0 ? `Go to move #${historyIndex}` : "Go to game start"];
    an index of [history.map] is a natural number and prints in decimal. *)
Definition description (historyIndex : nat) : string :=
  if (0 <? historyIndex)%nat
  then "Go to move #" +:+ pretty historyIndex
  else "Go to game start".

(** [history.map((_, historyIndex) => ...)]: one button per entry, with
    the index it jumps to and its label. *)
Definition moveButtons (state : GameState) : list (nat * string) :=
  imap (fun historyIndex _ => (historyIndex, description historyIndex))
    (history state).


(** ** The shape of a played history *)

(** The test of [calculateTurns]: the slot is no hole and is not [null]. *)
Definition counted (square : jsval) : bool :=
  negb (strict_eq square Undefined) && negb (strict_eq square Null).

(** The entry [b] follows the entry [a] at index [k]: [a] has no winner
    and [b] is [a] with one empty cell taken by the player of move [k]. *)
Definition entry_step (k : nat) (a b : squares_t) : Prop :=
  Combine.calculateWinner a = Null
  /\ exists i, aget a i = Null
               /\ b = <[i:=Str (player_of (Z.even (Z.of_nat k)))]> a.

(** A history as the game writes it: it starts with the empty board and
    every entry follows its predecessor by one move. *)
Definition history_ok (h : list squares_t) : Prop :=
  h !! 0%nat = Some empty_board
  /\ forall k a b, h !! k = Some a -> h !! S k = Some b -> entry_step k a b.

(** The store after the opening move in the middle of the board. *)
Definition opened : GameState :=
  handlePlay initialState (<[4%nat:=X]> empty_board).

(** The store after the game [top_row_game], which ["X"] wins. *)
Definition won : GameState :=
  default initialState (clicks initialState top_row_game).

(** ** Values and arrays *)

Lemma truthy_marker v : truthy v = true <-> marker v.
Proof.
  split.
  - destruct v as [| |s]; simpl; try discriminate.
    destruct s; [discriminate|]. intros _. eexists; split; [reflexivity|discriminate].
  - intros (s & -> & Hs). destruct s; [contradiction|reflexivity].
Qed.

Lemma truthy_Str s : s <> EmptyString -> truthy (Str s) = true.
Proof. intros Hs. apply truthy_marker. exists s. auto. Qed.

Lemma strict_eq_true u v : strict_eq u v = true <-> u = v.
Proof. unfold strict_eq. apply bool_decide_eq_true. Qed.

Lemma aget_lookup (squares : squares_t) i v :
  squares !! i = Some v -> aget squares i = v.
Proof. unfold aget. intros ->. reflexivity. Qed.

Lemma aget_ge (squares : squares_t) i :
  (length squares <= i)%nat -> aget squares i = Undefined.
Proof. intros H. unfold aget. rewrite lookup_ge_None_2; [reflexivity|lia]. Qed.

Lemma aget_Null_lt (squares : squares_t) i :
  aget squares i = Null -> (i < length squares)%nat.
Proof.
  intros H. destruct (decide (i < length squares)%nat) as [|Hge]; [assumption|].
  rewrite aget_ge in H by lia. discriminate.
Qed.

Lemma aset_inside (squares : squares_t) i v :
  (i < length squares)%nat -> aset squares i v = <[i:=v]> squares.
Proof. intros H. unfold aset. rewrite decide_True; auto. Qed.

Lemma aget_aset_eq (squares : squares_t) i v : aget (aset squares i v) i = v.
Proof.
  unfold aset, aget. destruct (decide (i < length squares)%nat) as [Hlt|Hge].
  - rewrite list_lookup_insert_eq; auto.
  - rewrite lookup_app_r by lia.
    rewrite lookup_app_r; rewrite length_replicate; [|lia].
    replace (i - length squares - (i - length squares))%nat with 0%nat by lia.
    reflexivity.
Qed.

Lemma aget_aset_ne (squares : squares_t) i j v :
  (i < length squares)%nat -> j <> i ->
  aget (aset squares i v) j = aget squares j.
Proof.
  intros Hlt Hne. rewrite aset_inside by assumption. unfold aget.
  rewrite list_lookup_insert_ne; auto.
Qed.

Lemma slice0_take {A : Type} (l : list A) (m : Z) :
  0 <= m < Z.of_nat (length l) ->
  slice0 l (m + 1) = take (S (Z.to_nat m)) l.
Proof.
  intros Hm. unfold slice0.
  destruct (Z.ltb_spec (m + 1) 0) as [Hneg|_]; [lia|].
  f_equal. lia.
Qed.

Lemma filter_all {A : Type} (f : A -> bool) (l : list A) :
  length (List.filter f l) = length l -> Forall (fun x => f x = true) l.
Proof.
  induction l as [|x l IH]; simpl; intros H; [constructor|].
  pose proof (List.filter_length_le f l) as Hle.
  destruct (f x) eqn:Hx; simpl in H.
  - constructor; [assumption|]. apply IH. lia.
  - lia.
Qed.

(** On a board of the data model with [calculateTurns] equal to 9 every
    cell holds a marker. *)
Lemma full_board_marker (squares : squares_t) i :
  board_ok squares -> calculateTurns squares = 9 -> (i < 9)%nat ->
  marker (aget squares i).
Proof.
  intros [Hlen Hcells] Hturns Hi. unfold calculateTurns in Hturns.
  assert (Hall : Forall
            (fun v => negb (strict_eq v Undefined) && negb (strict_eq v Null)
                      = true) squares).
  { apply filter_all. lia. }
  destruct (squares !! i) as [v|] eqn:Hv.
  - rewrite (aget_lookup _ _ _ Hv).
    rewrite Forall_forall in Hall, Hcells.
    assert (Hin : v ∈ squares) by (apply list_elem_of_lookup; eauto).
    specialize (Hall v Hin). specialize (Hcells v Hin).
    destruct Hcells as [->|[->| ->]].
    + vm_compute in Hall. discriminate.
    + exists "X"%string. split; [reflexivity|discriminate].
    + exists "O"%string. split; [reflexivity|discriminate].
  - apply lookup_ge_None in Hv. lia.
Qed.

(** ** The winner *)

(** The two listings walk the same table in the same order. *)
Lemma calculateWinner_listings squares :
  Typed.calculateWinner squares = Combine.calculateWinner squares.
Proof. reflexivity. Qed.

Lemma winner_loop_first_win squares :
  Combine.calculateWinner squares = Typed.first_win squares Combine.lines.
Proof. reflexivity. Qed.

Lemma lines_grid :
  Combine.lines = rows ++ columns ++ diagonals
  /\ Typed.WINNING_LINES = rows ++ columns ++ diagonals.
Proof. split; reflexivity. Qed.

(** The loop test holds exactly on a line filled with one marker. *)
Lemma line_wins_filled squares l :
  line_wins squares l = true <-> exists m, line_filled squares l m.
Proof.
  destruct l as [[a b] c]. unfold line_wins, line_filled. split.
  - intros H. apply andb_true_iff in H as [H Hc].
    apply andb_true_iff in H as [Ha Hb].
    apply strict_eq_true in Hb, Hc. apply truthy_marker in Ha as (m & Hm & Hne).
    exists m. rewrite <- Hb, <- Hc. auto.
  - intros (m & Hne & Ha & Hb & Hc). rewrite Ha, Hb, Hc.
    rewrite truthy_Str by assumption.
    unfold strict_eq. rewrite bool_decide_eq_true_2; reflexivity.
Qed.

Lemma line_filled_head squares l m :
  line_filled squares l m -> line_head squares l = Str m.
Proof. destruct l as [[a b] c]. simpl. tauto. Qed.

Lemma line_wins_false squares l :
  line_wins squares l = false <-> forall m, ~ line_filled squares l m.
Proof.
  split.
  - intros H m Hm.
    assert (line_wins squares l = true) by (apply line_wins_filled; eauto).
    congruence.
  - intros H. destruct (line_wins squares l) eqn:E; [|reflexivity].
    apply line_wins_filled in E as [m Hm]. destruct (H m Hm).
Qed.

(** The walk returns the marker of the first filled line. *)
Lemma first_win_first squares pre l post m :
  (forall l' m', l' ∈ pre -> ~ line_filled squares l' m') ->
  line_filled squares l m ->
  Typed.first_win squares (pre ++ l :: post) = Str m.
Proof.
  induction pre as [|p pre IH]; simpl; intros Hpre Hl.
  - assert (E : line_wins squares l = true) by (apply line_wins_filled; eauto).
    rewrite E. apply line_filled_head; assumption.
  - assert (E : line_wins squares p = false).
    { apply line_wins_false. intros m'. apply Hpre. left. }
    rewrite E. apply IH; [|assumption].
    intros l' m' Hin. apply Hpre. right. assumption.
Qed.

(** Without a filled line the walk returns [null]. *)
Lemma first_win_none squares ls :
  (forall l m, l ∈ ls -> ~ line_filled squares l m) ->
  Typed.first_win squares ls = Null.
Proof.
  induction ls as [|l ls IH]; simpl; intros H; [reflexivity|].
  assert (E : line_wins squares l = false).
  { apply line_wins_false. intros m. apply H. left. }
  rewrite E. apply IH. intros l' m Hin. apply H. right. assumption.
Qed.

(** Every list of lines splits at its first filled line, if it has one. *)
Lemma first_filled_split squares ls :
  (exists l m, l ∈ ls /\ line_filled squares l m) ->
  exists pre l1 post m1,
    ls = pre ++ l1 :: post
    /\ (forall l' m', l' ∈ pre -> ~ line_filled squares l' m')
    /\ line_filled squares l1 m1.
Proof.
  induction ls as [|l ls IH]; intros (l0 & m0 & Hin & Hf).
  - inversion Hin.
  - destruct (line_wins squares l) eqn:E.
    + apply line_wins_filled in E as [m Hm].
      exists [], l, ls, m. split; [reflexivity|]. split; [|assumption].
      intros l' m' Hin'. inversion Hin'.
    + assert (Hrest : l0 ∈ ls).
      { apply elem_of_cons in Hin as [->|Hin]; [|assumption].
        apply line_wins_false with (m := m0) in E. contradiction. }
      destruct IH as (pre & l1 & post & m1 & -> & Hpre & Hl1); [eauto|].
      exists (l :: pre), l1, post, m1. split; [reflexivity|].
      split; [|assumption].
      intros l' m' Hin'. apply elem_of_cons in Hin' as [->|Hin'].
      * apply line_wins_false. assumption.
      * apply Hpre. assumption.
Qed.

(** [calculateWinner] returns [null] or a marker, never the empty
    string and never [undefined]. *)
Lemma first_win_result squares ls :
  Typed.first_win squares ls = Null \/ marker (Typed.first_win squares ls).
Proof.
  induction ls as [|l ls IH]; simpl; [left; reflexivity|].
  destruct (line_wins squares l) eqn:E; [|assumption].
  right. apply line_wins_filled in E as [m Hm].
  rewrite (line_filled_head _ _ _ Hm). exists m. split; [reflexivity|].
  destruct l as [[a b] c]. apply Hm.
Qed.

Lemma calculateWinner_result squares :
  Combine.calculateWinner squares = Null
  \/ marker (Combine.calculateWinner squares).
Proof. rewrite winner_loop_first_win. apply first_win_result. Qed.

Lemma calculateWinner_truthy squares :
  Combine.calculateWinner squares <> Null ->
  truthy (Combine.calculateWinner squares) = true.
Proof.
  intros H. apply truthy_marker.
  destruct (calculateWinner_result squares); [contradiction|assumption].
Qed.

(** ** Claims about [calculateWinner] *)

(** C4, as the specification words it, fails: on a board where two lines
    are filled with different markers the winner is the marker of the
    line that comes first in the table, not the marker of every filled
    line.  Here the middle row is filled with ["O"] and the winner is
    ["X"]. *)
Lemma calculateWinner_any_filled_line_cex :
  ~ (forall (squares : squares_t) l m,
        l ∈ Combine.lines -> line_filled squares l m ->
        Combine.calculateWinner squares = Str m).
Proof.
  intros H. specialize (H two_rows (3, 4, 5)%nat "O"%string).
  assert (Hin : (3, 4, 5)%nat ∈ Combine.lines).
  { unfold Combine.lines. apply list_elem_of_further, list_elem_of_here. }
  assert (Hf : line_filled two_rows (3, 4, 5)%nat "O").
  { unfold line_filled. repeat split. discriminate. }
  specialize (H Hin Hf). vm_compute in H. discriminate.
Qed.

(** C4 (amended): [calculateWinner] walks the eight lines (three rows,
    three columns, two diagonals) in the order of the table and returns
    the marker that fills the first filled line, or [null] when no line
    is filled.  So on a board with a line filled with [m] the winner is
    the marker of the first filled line, and it is [m] when no line is
    filled with another marker.  Both listings agree. *)
Theorem calculateWinner_first_filled_line (squares : squares_t) :
  (Combine.lines = rows ++ columns ++ diagonals
   /\ Typed.WINNING_LINES = Combine.lines)
  /\ (forall pre l post m,
        Combine.lines = pre ++ l :: post ->
        (forall l' m', l' ∈ pre -> ~ line_filled squares l' m') ->
        line_filled squares l m ->
        Combine.calculateWinner squares = Str m
        /\ Typed.calculateWinner squares = Str m)
  /\ ((forall l m, l ∈ Combine.lines -> ~ line_filled squares l m) ->
      Combine.calculateWinner squares = Null
      /\ Typed.calculateWinner squares = Null)
  /\ (forall l m,
        l ∈ Combine.lines -> line_filled squares l m ->
        (exists pre l1 post m1,
            Combine.lines = pre ++ l1 :: post
            /\ (forall l' m', l' ∈ pre -> ~ line_filled squares l' m')
            /\ line_filled squares l1 m1
            /\ Combine.calculateWinner squares = Str m1
            /\ Typed.calculateWinner squares = Str m1)
        /\ ((forall l' m',
                l' ∈ Combine.lines -> line_filled squares l' m' -> m' = m) ->
            Combine.calculateWinner squares = Str m
            /\ Typed.calculateWinner squares = Str m)).
Proof.
  split; [split; reflexivity|].
  assert (Hfirst : forall pre l post m,
             Combine.lines = pre ++ l :: post ->
             (forall l' m', l' ∈ pre -> ~ line_filled squares l' m') ->
             line_filled squares l m ->
             Combine.calculateWinner squares = Str m
             /\ Typed.calculateWinner squares = Str m).
  { intros pre l post m Hsplit Hpre Hl.
    change (Typed.calculateWinner squares)
      with (Typed.first_win squares Combine.lines).
    rewrite winner_loop_first_win, Hsplit.
    split; apply first_win_first; assumption. }
  split; [exact Hfirst|]. split.
  - intros Hnone.
    change (Typed.calculateWinner squares)
      with (Typed.first_win squares Combine.lines).
    rewrite winner_loop_first_win.
    split; apply first_win_none; assumption.
  - intros l m Hin Hl.
    destruct (first_filled_split squares Combine.lines)
      as (pre & l1 & post & m1 & Hsplit & Hpre & Hl1); [eauto|].
    destruct (Hfirst pre l1 post m1 Hsplit Hpre Hl1) as [H1 H2].
    split.
    + exists pre, l1, post, m1. auto.
    + intros Honly.
      assert (m1 = m) as <-; [|auto].
      apply (Honly l1). 2: assumption.
      rewrite Hsplit. apply elem_of_app. right. left.
Qed.

(** The walk passes the unfilled top row and stops at the middle row. *)
Lemma calculateWinner_first_filled_line_witness :
  Combine.calculateWinner middle_row = O
  /\ Typed.calculateWinner middle_row = O.
Proof.
  destruct (calculateWinner_first_filled_line middle_row) as (_ & H & _).
  apply (H [(0, 1, 2)%nat] (3, 4, 5)%nat
           [(6, 7, 8); (0, 3, 6); (1, 4, 7); (2, 5, 8); (0, 4, 8); (2, 4, 6)]%nat
           "O"%string).
  - reflexivity.
  - intros l' m' Hin Hf. apply list_elem_of_singleton in Hin. subst l'.
    destruct Hf as (_ & _ & Hb & _). vm_compute in Hb. discriminate.
  - unfold line_filled. repeat split. discriminate.
Defined.

(** ** The status line *)

(** With a truthy winner both listings announce it. *)
Lemma calculateStatus_truthy winner turns player :
  truthy winner = true ->
  Combine.calculateStatus winner turns player = "Winner: " +:+ template winner
  /\ Typed.calculateStatus winner turns player = "Winner: " +:+ template winner.
Proof.
  intros H. unfold Combine.calculateStatus, Typed.calculateStatus.
  rewrite H. split; reflexivity.
Qed.

(** The second listing announces a draw exactly as the data model asks:
    no winner and nine turns. *)
Lemma Typed_status_draw winner player :
  truthy winner = false -> Typed.calculateStatus winner 9 player = "Draw".
Proof. intros H. unfold Typed.calculateStatus. rewrite H. reflexivity. Qed.

Lemma Typed_status_next winner turns player :
  truthy winner = false -> turns <> 9 ->
  Typed.calculateStatus winner turns player = "Next player: " +:+ player.
Proof.
  intros H Hturns. unfold Typed.calculateStatus. rewrite H.
  destruct (Z.eqb_spec turns 9); [contradiction|reflexivity].
Qed.

(** The first listing tests [!turns]: its draw is the board with no turn
    played. *)
Lemma Combine_status_draw winner player :
  truthy winner = false -> Combine.calculateStatus winner 0 player = "Draw".
Proof. intros H. unfold Combine.calculateStatus. rewrite H. reflexivity. Qed.

Lemma Combine_status_next winner turns player :
  truthy winner = false -> turns <> 0 ->
  Combine.calculateStatus winner turns player = "Next player: " +:+ player.
Proof.
  intros H Hturns. unfold Combine.calculateStatus. rewrite H.
  destruct (Z.eqb_spec turns 0); [contradiction|reflexivity].
Qed.

(** Where the two listings print the same text: with a winner, and
    without one away from 0 and 9 turns. *)
Lemma calculateStatus_agree winner turns player :
  truthy winner = true \/ (turns <> 0 /\ turns <> 9) ->
  Combine.calculateStatus winner turns player
  = Typed.calculateStatus winner turns player.
Proof.
  intros [H|[H0 H9]].
  - destruct (calculateStatus_truthy winner turns player H) as [-> ->].
    reflexivity.
  - destruct (truthy winner) eqn:E.
    + destruct (calculateStatus_truthy winner turns player E) as [-> ->].
      reflexivity.
    + rewrite Combine_status_next, Typed_status_next by assumption.
      reflexivity.
Qed.

(** The second listing on whole boards: draw on a full board without a
    line, next player on a board with an empty cell and no line. *)
Lemma status2_draw xn (squares : squares_t) :
  Typed.calculateWinner squares = Null -> calculateTurns squares = 9 ->
  status2 xn squares = "Draw".
Proof.
  intros Hw Ht. unfold status2. rewrite Hw, Ht. reflexivity.
Qed.

Lemma status2_next xn (squares : squares_t) :
  Typed.calculateWinner squares = Null -> calculateTurns squares < 9 ->
  status2 xn squares = "Next player: " +:+ player_of xn.
Proof.
  intros Hw Ht. unfold status2. rewrite Hw.
  apply Typed_status_next; [reflexivity|lia].
Qed.

(** C1: on a full board without a line the status must read "Draw".  The
    second listing does so ([status2_draw]); the first listing tests
    [!turns] where it means [turns === 9] and prints the next player.
    The board [drawn] is reached by nine clicks from the initial store. *)
Theorem status1_full_board_not_draw :
  board_ok drawn
  /\ Combine.calculateWinner drawn = Null
  /\ calculateTurns drawn = 9
  /\ (exists state,
         clicks initialState drawn_game = Some state
         /\ currentSquares state = Some drawn
         /\ status1 (xIsNext state) drawn = "Next player: O"
         /\ status2 (xIsNext state) drawn = "Draw")
  /\ Combine.calculateStatus Null 9 "O" = "Next player: O".
Proof.
  split.
  { split; [reflexivity|]. unfold drawn.
    repeat (apply List.Forall_cons; [auto|]). apply List.Forall_nil. }
  split; [reflexivity|]. split; [reflexivity|]. split; [|reflexivity].
  eexists. split; [vm_compute; reflexivity|].
  repeat split; vm_compute; reflexivity.
Qed.

(** C2: on a board without a line and with an empty cell the status must
    read "Next player: ...".  The second listing does so
    ([status2_next]); the first listing prints "Draw" on the empty board,
    the very first render of the game. *)
Theorem status1_empty_board_draw :
  currentSquares initialState = Some empty_board
  /\ Combine.calculateWinner empty_board = Null
  /\ calculateTurns empty_board = 0
  /\ status1 (xIsNext initialState) empty_board = "Draw"
  /\ status2 (xIsNext initialState) empty_board = "Next player: X"
  /\ Combine.calculateStatus Null 0 "X" = "Draw".
Proof. repeat split; vm_compute; reflexivity. Qed.

(** C10: the two listings of [calculateStatus] differ without a winner at
    0 turns and at 9 turns; elsewhere they agree
    ([calculateStatus_agree]). *)
Theorem calculateStatus_listings_differ :
  Combine.calculateStatus Null 0 "X" = "Draw"
  /\ Typed.calculateStatus Null 0 "X" = "Next player: X"
  /\ Combine.calculateStatus Null 9 "O" = "Next player: O"
  /\ Typed.calculateStatus Null 9 "O" = "Draw"
  /\ ~ (forall winner turns player,
          Combine.calculateStatus winner turns player
          = Typed.calculateStatus winner turns player).
Proof.
  repeat split; try reflexivity.
  intros H. specialize (H Null 0 "X"%string). vm_compute in H. discriminate.
Qed.

(** C7: whenever there is a winner the status reads "Winner: " followed
    by it, whatever the number of turns and the next player, in both
    listings: for every value [w] that [calculateWinner] returns on some
    board, and for every marker [w].  When ["X"] fills the cells 0, 1 and
    2 the winner is ["X"] and the status "Winner: X". *)
Theorem calculateStatus_winner :
  (forall (w : string) turns player,
      (exists squares : squares_t, Combine.calculateWinner squares = Str w)
      \/ w <> EmptyString ->
      Combine.calculateStatus (Str w) turns player = "Winner: " +:+ w
      /\ Typed.calculateStatus (Str w) turns player = "Winner: " +:+ w)
  /\ (forall (squares : squares_t) xn,
        aget squares 0 = X -> aget squares 1 = X -> aget squares 2 = X ->
        Combine.calculateWinner squares = X
        /\ Typed.calculateWinner squares = X
        /\ status1 xn squares = "Winner: X"
        /\ status2 xn squares = "Winner: X")
  /\ (exists state,
        clicks initialState top_row_game = Some state
        /\ currentSquares state
           = Some [X; X; X; O; O; Null; Null; Null; Null]
        /\ status1 (xIsNext state) [X; X; X; O; O; Null; Null; Null; Null]
           = "Winner: X"
        /\ status2 (xIsNext state) [X; X; X; O; O; Null; Null; Null; Null]
           = "Winner: X").
Proof.
  split; [|split].
  - intros w turns player Hw.
    apply (calculateStatus_truthy (Str w)).
    destruct Hw as [[squares Hsq]|Hne].
    + rewrite <- Hsq. apply calculateWinner_truthy. rewrite Hsq. discriminate.
    + apply truthy_Str. assumption.
  - intros squares xn H0 H1 H2.
    assert (Hw : Combine.calculateWinner squares = X).
    { unfold Combine.calculateWinner. simpl.
      unfold line_wins. rewrite H0, H1, H2. reflexivity. }
    unfold status1, status2.
    change (Typed.calculateWinner squares)
      with (Combine.calculateWinner squares).
    rewrite Hw. repeat split; reflexivity.
  - eexists. split; [vm_compute; reflexivity|].
    repeat split; vm_compute; reflexivity.
Qed.

(** The winner of the board [two_rows] is announced at any count. *)
Lemma calculateStatus_winner_witness :
  Combine.calculateStatus X 5 "O" = "Winner: X"
  /\ Typed.calculateStatus X 5 "O" = "Winner: X".
Proof.
  destruct calculateStatus_winner as (H & _).
  apply (H "X"%string 5 "O"%string).
  left. exists two_rows. reflexivity.
Defined.

(** ** The handlers of [Game] *)

Lemma currentSquares_inv state squares :
  currentSquares state = Some squares ->
  0 <= currentMove state < Z.of_nat (length (history state))
  /\ history state !! Z.to_nat (currentMove state) = Some squares.
Proof.
  unfold currentSquares. destruct (Z.leb_spec 0 (currentMove state)) as [Hle|];
    [|discriminate].
  intros H. split; [|assumption].
  apply lookup_lt_Some in H. lia.
Qed.

Lemma xIsNext_even state :
  0 <= currentMove state -> xIsNext state = Z.even (currentMove state).
Proof.
  intros H. unfold xIsNext. rewrite Z.rem_mod_nonneg by lia.
  rewrite Zmod_even. destruct (Z.even (currentMove state)); reflexivity.
Qed.

(** [handlePlay] inside the history: the entries up to [currentMove]
    stay, the new board follows them, and the index moves onto it. *)
Lemma handlePlay_inside state nextSquares :
  0 <= currentMove state < Z.of_nat (length (history state)) ->
  handlePlay state nextSquares
  = {| history := take (S (Z.to_nat (currentMove state))) (history state)
                  ++ [nextSquares];
       currentMove := currentMove state + 1 |}.
Proof.
  intros Hm. unfold handlePlay, setCurrentMove, setHistory. simpl.
  rewrite slice0_take by assumption. f_equal.
  rewrite length_app, length_take. cbn [length]. lia.
Qed.

(** Whatever the store holds, [handlePlay] leaves a non-empty history
    and an index on its last entry. *)
Lemma handlePlay_ok state nextSquares :
  state_ok (handlePlay state nextSquares).
Proof.
  unfold state_ok, handlePlay, setCurrentMove, setHistory. simpl.
  rewrite length_app. simpl. lia.
Qed.

Lemma handleClick_guard xn (squares : squares_t) i :
  marker (aget squares i) \/ Combine.calculateWinner squares <> Null ->
  handleClick xn squares i = None.
Proof.
  intros H. unfold handleClick.
  assert (E : truthy (aget squares i)
              || truthy (Combine.calculateWinner squares) = true).
  { apply orb_true_iff. destruct H as [H|H].
    - left. apply truthy_marker. assumption.
    - right. apply calculateWinner_truthy. assumption. }
  rewrite E. reflexivity.
Qed.

Lemma handleClick_empty xn (squares : squares_t) i :
  aget squares i = Null -> Combine.calculateWinner squares = Null ->
  handleClick xn squares i = Some (<[i:=Str (player_of xn)]> squares).
Proof.
  intros Hi Hw. unfold handleClick. rewrite Hi, Hw. simpl.
  rewrite aset_inside; [reflexivity|]. apply aget_Null_lt. assumption.
Qed.

(** ** Claims about the history *)

(** C5: [jumpTo] writes the index and nothing else. *)
Theorem jumpTo_only_currentMove (state : GameState) (i : Z) :
  jumpTo state i = {| history := history state; currentMove := i |}
  /\ history (jumpTo state i) = history state
  /\ currentMove (jumpTo state i) = i.
Proof. repeat split. Qed.

(** C3: with the index [m] inside the history [H], [handlePlay b] keeps
    the entries [H[0..m]], drops the later ones, appends [b] and moves the
    index to [m + 1], the last entry.  After five moves, a jump to the
    start and one more move the history has two entries. *)
Theorem handlePlay_truncates_then_appends :
  (forall (H : list squares_t) (m : Z) (b : squares_t),
      0 <= m < Z.of_nat (length H) ->
      let state' := handlePlay {| history := H; currentMove := m |} b in
      history state' = take (S (Z.to_nat m)) H ++ [b]
      /\ currentMove state' = m + 1
      /\ Z.of_nat (length (history state')) = m + 2
      /\ (forall k, (k <= Z.to_nat m)%nat -> history state' !! k = H !! k)
      /\ history state' !! Z.to_nat (m + 1) = Some b)
  /\ (exists state5,
        clicks initialState five_moves = Some state5
        /\ length (history state5) = 6%nat
        /\ currentMove state5 = 5
        /\ exists state',
            squareClick (jumpTo state5 0) 8 = Some state'
            /\ history state' = [empty_board; <[8%nat:=X]> empty_board]
            /\ length (history state') = 2%nat
            /\ currentMove state' = 1).
Proof.
  split.
  - intros H m b Hm state'. subst state'.
    rewrite handlePlay_inside by (simpl; lia). simpl.
    split; [reflexivity|]. split; [reflexivity|].
    split; [rewrite length_app, length_take; cbn [length]; lia|].
    split.
    + intros k Hk. rewrite lookup_app_l by (rewrite length_take; lia).
      apply lookup_take_lt. lia.
    + rewrite lookup_app_r by (rewrite length_take; lia).
      rewrite length_take.
      replace (Z.to_nat (m + 1) - S (Z.to_nat m) `min` length H)%nat
        with 0%nat by lia.
      reflexivity.
  - eexists. split; [vm_compute; reflexivity|].
    split; [reflexivity|]. split; [reflexivity|].
    eexists. split; [vm_compute; reflexivity|].
    repeat split.
Qed.

(** A history of three boards, viewed at its start: a move drops the two
    later boards. *)
Lemma handlePlay_truncates_then_appends_witness :
  history (handlePlay {| history := [empty_board; middle_row; drawn];
                         currentMove := 0 |} two_rows)
  = [empty_board; two_rows].
Proof.
  destruct handlePlay_truncates_then_appends as (H & _).
  destruct (H [empty_board; middle_row; drawn] 0 two_rows) as (Hh & _).
  - simpl. lia.
  - exact Hh.
Defined.

(** ** Claims about clicks *)

(** C6: a click on a cell that holds a marker, and any click while the
    displayed board has a winner, returns at the guard of [handleClick]:
    [onPlay] is not called and the store keeps its history and its index.
    On a full board without a line every one of the nine cells is such a
    click. *)
Theorem squareClick_ignored :
  (forall (state : GameState) (squares : squares_t) (i : nat),
      currentSquares state = Some squares ->
      marker (aget squares i) \/ Combine.calculateWinner squares <> Null ->
      handleClick (xIsNext state) squares i = None
      /\ squareClick state i = Some state)
  /\ (forall (state : GameState) (squares : squares_t) (i : nat),
        currentSquares state = Some squares ->
        board_ok squares ->
        calculateTurns squares = 9 ->
        Combine.calculateWinner squares = Null ->
        (i < 9)%nat ->
        squareClick state i = Some state)
  /\ (exists state,
        clicks initialState drawn_game = Some state
        /\ currentSquares state = Some drawn
        /\ forall i, (i < 9)%nat -> squareClick state i = Some state).
Proof.
  assert (Hguard : forall (state : GameState) (squares : squares_t) (i : nat),
             currentSquares state = Some squares ->
             marker (aget squares i)
             \/ Combine.calculateWinner squares <> Null ->
             handleClick (xIsNext state) squares i = None
             /\ squareClick state i = Some state).
  { intros state squares i Hcur Hor.
    pose proof (handleClick_guard (xIsNext state) squares i Hor) as Hnone.
    split; [assumption|].
    unfold squareClick. rewrite Hcur, Hnone. reflexivity. }
  assert (Hfull : forall (state : GameState) (squares : squares_t) (i : nat),
             currentSquares state = Some squares ->
             board_ok squares ->
             calculateTurns squares = 9 ->
             Combine.calculateWinner squares = Null ->
             (i < 9)%nat ->
             squareClick state i = Some state).
  { intros state squares i Hcur Hok Hturns _ Hi.
    apply (Hguard state squares i Hcur). left.
    apply full_board_marker; assumption. }
  split; [exact Hguard|]. split; [exact Hfull|].
  eexists. split; [vm_compute; reflexivity|].
  split; [reflexivity|].
  intros i Hi. apply (Hfull _ drawn); try reflexivity; try assumption.
  split; [reflexivity|]. unfold drawn.
  repeat (apply List.Forall_cons; [auto|]). apply List.Forall_nil.
Qed.

(** After the game [top_row_game] ["X"] has won: a click on the empty
    cell 8 changes nothing. *)
Lemma squareClick_ignored_witness :
  squareClick
    {| history := [empty_board; [X; X; X; O; O; Null; Null; Null; Null]];
       currentMove := 1 |} 8
  = Some {| history := [empty_board; [X; X; X; O; O; Null; Null; Null; Null]];
            currentMove := 1 |}.
Proof.
  destruct squareClick_ignored as (H & _).
  apply (H _ [X; X; X; O; O; Null; Null; Null; Null]).
  - reflexivity.
  - right. vm_compute. discriminate.
Defined.

(** C8: a click on an empty cell [i] of the displayed board, when it has
    no winner, plays a board that holds the marker of the player to move
    at [i] and the displayed board's cells everywhere else; the player
    to move is ["X"] at an even index and ["O"] at an odd one; the new
    board is appended after the current entry and displayed.  A click on
    cell 4 of the empty board gives the board with a single ["X"] in the
    middle, the index 1 and the status "Next player: O". *)
Theorem squareClick_empty_cell :
  (forall (state : GameState) (squares : squares_t) (i : nat),
      currentSquares state = Some squares ->
      aget squares i = Null ->
      Combine.calculateWinner squares = Null ->
      exists nextSquares,
        handleClick (xIsNext state) squares i = Some nextSquares
        /\ length nextSquares = length squares
        /\ aget nextSquares i
           = Str (if Z.even (currentMove state) then "X" else "O")
        /\ (forall j, j <> i -> aget nextSquares j = aget squares j)
        /\ squareClick state i = Some (handlePlay state nextSquares)
        /\ currentMove (handlePlay state nextSquares) = currentMove state + 1
        /\ currentSquares (handlePlay state nextSquares) = Some nextSquares)
  /\ (exists state',
        squareClick initialState 4 = Some state'
        /\ history state'
           = [empty_board;
              [Null; Null; Null; Null; X; Null; Null; Null; Null]]
        /\ currentMove state' = 1
        /\ currentSquares state'
           = Some [Null; Null; Null; Null; X; Null; Null; Null; Null]
        /\ status1 (xIsNext state')
             [Null; Null; Null; Null; X; Null; Null; Null; Null]
           = "Next player: O"
        /\ status2 (xIsNext state')
             [Null; Null; Null; Null; X; Null; Null; Null; Null]
           = "Next player: O").
Proof.
  split.
  - intros state squares i Hcur Hi Hw.
    destruct (currentSquares_inv state squares Hcur) as [Hm Hlook].
    pose proof (aget_Null_lt squares i Hi) as Hlt.
    exists (<[i:=Str (player_of (xIsNext state))]> squares).
    pose proof (handleClick_empty (xIsNext state) squares i Hi Hw) as Hclick.
    split; [assumption|]. split; [apply length_insert|].
    split.
    { unfold aget. rewrite list_lookup_insert_eq by assumption. simpl.
      rewrite xIsNext_even by lia.
      destruct (Z.even (currentMove state)); reflexivity. }
    split.
    { intros j Hj. unfold aget. rewrite list_lookup_insert_ne by auto.
      reflexivity. }
    split.
    { unfold squareClick. rewrite Hcur, Hclick. reflexivity. }
    rewrite handlePlay_inside by assumption. simpl.
    split; [reflexivity|].
    unfold currentSquares. simpl.
    destruct (Z.leb_spec 0 (currentMove state + 1)) as [_|]; [|lia].
    rewrite lookup_app_r by (rewrite length_take; lia).
    rewrite length_take.
    replace (Z.to_nat (currentMove state + 1)
             - S (Z.to_nat (currentMove state)) `min` length (history state))%nat
      with 0%nat by lia.
    reflexivity.
  - eexists. split; [vm_compute; reflexivity|].
    repeat split.
Qed.

(** The second move of a game: ["O"] takes the empty cell 0 next to the
    ["X"] in the middle. *)
Lemma squareClick_empty_cell_witness :
  exists nextSquares,
    handleClick false [Null; Null; Null; Null; X; Null; Null; Null; Null] 0
    = Some nextSquares
    /\ aget nextSquares 0 = O.
Proof.
  destruct squareClick_empty_cell as (H & _).
  destruct (H {| history :=
                   [empty_board;
                    [Null; Null; Null; Null; X; Null; Null; Null; Null]];
                 currentMove := 1 |}
              [Null; Null; Null; Null; X; Null; Null; Null; Null] 0%nat)
    as (nextSquares & Hclick & _ & Hcell & _).
  - reflexivity.
  - reflexivity.
  - reflexivity.
  - exists nextSquares. split; [exact Hclick|exact Hcell].
Defined.

(** ** The invariant of the store *)

Lemma squareClick_ok state i state' :
  state_ok state -> squareClick state i = Some state' -> state_ok state'.
Proof.
  intros Hok. unfold squareClick.
  destruct (currentSquares state) as [squares|]; [|discriminate].
  destruct (handleClick (xIsNext state) squares i) as [nextSquares|];
    intros [= <-]; [apply handlePlay_ok|assumption].
Qed.

Lemma ui_step_ok state state' :
  state_ok state -> ui_step state state' -> state_ok state'.
Proof.
  intros Hok Hstep. destruct Hstep as [state squares i state' _ _ Hclick
                                      |state index Hindex].
  - eapply squareClick_ok; eassumption.
  - unfold state_ok, jumpTo, setCurrentMove. simpl. lia.
Qed.

Lemma reachable_inv state : reachable state -> state_ok state.
Proof.
  intros Hreach. induction Hreach as [|state state' _ IH Hstep].
  - unfold state_ok. simpl. lia.
  - eapply ui_step_ok; eassumption.
Qed.

(** C9: every state the page reaches from the initial store, by clicks
    on the squares of the displayed board and on the buttons of the
    history, has a non-empty history and an index inside it. *)
Theorem reachable_state_ok (state : GameState) :
  reachable state ->
  (1 <= length (history state))%nat
  /\ 0 <= currentMove state < Z.of_nat (length (history state)).
Proof. apply reachable_inv. Qed.

(** One click and a jump back to the start. *)
Lemma reachable_state_ok_witness :
  (1 <= length (history (jumpTo (handlePlay initialState
                                   (<[4%nat:=X]> empty_board)) 0)))%nat
  /\ 0 <= currentMove (jumpTo (handlePlay initialState
                                 (<[4%nat:=X]> empty_board)) 0)
     < Z.of_nat (length (history (jumpTo (handlePlay initialState
                                            (<[4%nat:=X]> empty_board)) 0))).
Proof.
  apply reachable_state_ok.
  apply (reach_step (handlePlay initialState (<[4%nat:=X]> empty_board))).
  - apply (reach_step initialState); [apply reach_init|].
    apply (ui_click initialState empty_board 4).
    + reflexivity.
    + simpl. lia.
    + reflexivity.
  - apply (ui_jump _ 0). simpl. lia.
Defined.

(** On every reachable state the board renders: [history[currentMove]]
    is a board of the data model. *)
Lemma handleClick_board_ok xn (squares nextSquares : squares_t) i :
  board_ok squares -> (i < length squares)%nat ->
  handleClick xn squares i = Some nextSquares -> board_ok nextSquares.
Proof.
  intros [Hlen Hcells] Hi. unfold handleClick.
  destruct (truthy (aget squares i) || truthy (Combine.calculateWinner squares));
    [discriminate|].
  intros [= <-]. rewrite aset_inside by assumption. split.
  - rewrite length_insert. assumption.
  - apply Forall_insert; [assumption|].
    destruct xn; simpl; auto.
Qed.

Lemma reachable_boards_ok (state : GameState) :
  reachable state -> Forall board_ok (history state).
Proof.
  intros Hreach.
  induction Hreach as [|state state' Hreach IH Hstep].
  - simpl. apply List.Forall_cons; [|apply List.Forall_nil].
    split; [reflexivity|]. simpl.
    repeat (apply List.Forall_cons; [auto|]). apply List.Forall_nil.
  - destruct Hstep as [state squares i state' Hcur Hi Hclick
                      |state index Hindex]; [|assumption].
    unfold squareClick in Hclick. rewrite Hcur in Hclick.
    destruct (currentSquares_inv state squares Hcur) as [Hm Hlook].
    destruct (handleClick (xIsNext state) squares i) as [nextSquares|] eqn:E;
      injection Hclick as <-; [|assumption].
    rewrite handlePlay_inside by assumption. simpl.
    apply Forall_app. split.
    + apply Forall_take. assumption.
    + apply List.Forall_cons; [|apply List.Forall_nil].
      apply (handleClick_board_ok (xIsNext state) squares nextSquares i);
        try assumption.
      rewrite Forall_forall in IH. apply IH.
      apply list_elem_of_lookup. eauto.
Qed.

Lemma reachable_renders (state : GameState) :
  reachable state ->
  exists squares, currentSquares state = Some squares /\ board_ok squares.
Proof.
  intros Hreach.
  destruct (reachable_inv state Hreach) as [_ Hm].
  pose proof (reachable_boards_ok state Hreach) as Hboards.
  destruct (lookup_lt_is_Some_2 (history state) (Z.to_nat (currentMove state)))
    as [squares Hlook]; [lia|].
  exists squares. split.
  - unfold currentSquares.
    destruct (Z.leb_spec 0 (currentMove state)); [assumption|lia].
  - rewrite Forall_forall in Hboards. apply Hboards.
    apply list_elem_of_lookup. eauto.
Qed.

(** ** Counting the turns *)

Lemma calculateTurns_counted (squares : squares_t) :
  calculateTurns squares = Z.of_nat (length (List.filter counted squares)).
Proof. reflexivity. Qed.

Lemma counted_Str s : counted (Str s) = true.
Proof. reflexivity. Qed.

(** The count splits around any slot of the array. *)
Lemma count_split (squares : squares_t) i v :
  squares !! i = Some v ->
  length (List.filter counted squares)
  = (length (List.filter counted (take i squares))
     + (if counted v then 1 else 0)
     + length (List.filter counted (drop (S i) squares)))%nat.
Proof.
  intros Hv. rewrite <- (take_drop_middle squares i v Hv) at 1.
  rewrite List.filter_app, length_app. simpl.
  destruct (counted v); simpl; lia.
Qed.

Lemma count_insert (squares : squares_t) i v w :
  squares !! i = Some v ->
  length (List.filter counted (<[i:=w]> squares))
  = (length (List.filter counted (take i squares))
     + (if counted w then 1 else 0)
     + length (List.filter counted (drop (S i) squares)))%nat.
Proof.
  intros Hv. pose proof (lookup_lt_Some _ _ _ Hv) as Hlt.
  rewrite insert_take_drop by assumption.
  rewrite List.filter_app, length_app. simpl.
  destruct (counted w); simpl; lia.
Qed.

(** X1: [calculateTurns] lies between 0 and the length of the array, and
    it is 0 exactly when no slot holds a string. *)
Theorem calculateTurns_bounds (squares : squares_t) :
  0 <= calculateTurns squares <= Z.of_nat (length squares)
  /\ (calculateTurns squares = 0
      <-> forall i s, aget squares i <> Str s).
Proof.
  rewrite calculateTurns_counted. split.
  - pose proof (List.filter_length_le counted squares). lia.
  - split.
    + intros Hz i s Hi.
      destruct (squares !! i) as [v|] eqn:Hv.
      * rewrite (aget_lookup _ _ _ Hv) in Hi. subst v.
        rewrite (count_split _ _ _ Hv) in Hz. simpl in Hz. lia.
      * unfold aget in Hi. rewrite Hv in Hi. discriminate.
    + intros Hnone. induction squares as [|v squares IH]; [reflexivity|].
      simpl. destruct v as [| |s].
      * apply IH. intros i s. apply (Hnone (S i) s).
      * apply IH. intros i s. apply (Hnone (S i) s).
      * destruct (Hnone 0%nat s). reflexivity.
Qed.

(** X2: on a board of the data model [calculateTurns] is 9 exactly when
    every cell holds a marker. *)
Theorem calculateTurns_full_iff (squares : squares_t) :
  board_ok squares ->
  (calculateTurns squares = 9
   <-> forall i, (i < 9)%nat -> marker (aget squares i)).
Proof.
  intros Hok. split.
  - intros Hturns i Hi. apply full_board_marker; assumption.
  - intros Hall. destruct Hok as [Hlen _].
    rewrite calculateTurns_counted.
    assert (Hfilter : List.filter counted squares = squares).
    { apply List.forallb_filter_id. apply List.forallb_forall.
      intros v Hin. apply list_elem_of_In in Hin.
      apply list_elem_of_lookup in Hin as [i Hi].
      pose proof (lookup_lt_Some _ _ _ Hi) as Hlt.
      specialize (Hall i ltac:(lia)). rewrite (aget_lookup _ _ _ Hi) in Hall.
      destruct Hall as (s & -> & _). reflexivity. }
    rewrite Hfilter, Hlen. reflexivity.
Qed.

Lemma calculateTurns_full_iff_witness :
  calculateTurns drawn = 9
  <-> forall i, (i < 9)%nat -> marker (aget drawn i).
Proof.
  apply calculateTurns_full_iff.
  split; [reflexivity|]. unfold drawn.
  repeat (apply List.Forall_cons; [auto|]). apply List.Forall_nil.
Defined.

Lemma calculateTurns_insert_Null (squares : squares_t) i s :
  aget squares i = Null ->
  calculateTurns (<[i:=Str s]> squares) = calculateTurns squares + 1.
Proof.
  intros Hi. pose proof (aget_Null_lt _ _ Hi) as Hlt.
  destruct (lookup_lt_is_Some_2 squares i Hlt) as [v Hv].
  rewrite (aget_lookup _ _ _ Hv) in Hi. subst v.
  rewrite !calculateTurns_counted.
  rewrite (count_insert _ _ _ (Str s) Hv), (count_split _ _ _ Hv).
  simpl. lia.
Qed.

(** X3: a click that [handleClick] accepts on a cell inside the board
    adds exactly one turn, and the board keeps its length.  The cell must
    not hold the empty string: that one is falsy for the guard of
    [handleClick] and yet counted by [calculateTurns]. *)
Theorem handleClick_adds_one_turn xn (squares nextSquares : squares_t) i :
  (i < length squares)%nat ->
  aget squares i <> Str EmptyString ->
  handleClick xn squares i = Some nextSquares ->
  calculateTurns nextSquares = calculateTurns squares + 1
  /\ length nextSquares = length squares.
Proof.
  intros Hlt Hne. unfold handleClick.
  destruct (truthy (aget squares i)) eqn:Hcell; [discriminate|].
  destruct (truthy (Combine.calculateWinner squares)); [discriminate|].
  simpl. intros [= <-]. rewrite aset_inside by assumption.
  split; [|apply length_insert].
  destruct (lookup_lt_is_Some_2 squares i Hlt) as [v Hv].
  rewrite !calculateTurns_counted.
  rewrite (count_insert _ _ _ (Str (player_of xn)) Hv), (count_split _ _ _ Hv).
  rewrite (aget_lookup _ _ _ Hv) in Hcell, Hne.
  destruct v as [| |s]; simpl.
  - lia.
  - lia.
  - destruct s; [contradiction|discriminate].
Qed.

Lemma handleClick_adds_one_turn_witness :
  calculateTurns [O; Null; Null; Null; X; Null; Null; Null; Null]
  = calculateTurns [Null; Null; Null; Null; X; Null; Null; Null; Null] + 1
  /\ length [O; Null; Null; Null; X; Null; Null; Null; Null]
     = length [Null; Null; Null; Null; X; Null; Null; Null; Null].
Proof.
  apply (handleClick_adds_one_turn false
           [Null; Null; Null; Null; X; Null; Null; Null; Null] _ 0).
  - simpl. lia.
  - discriminate.
  - reflexivity.
Defined.

(** ** A winner needs three turns *)

Lemma first_win_filled squares ls :
  Typed.first_win squares ls <> Null ->
  exists l m, l ∈ ls /\ line_filled squares l m
              /\ Typed.first_win squares ls = Str m.
Proof.
  induction ls as [|l ls IH]; simpl; [congruence|].
  destruct (line_wins squares l) eqn:E.
  - intros _. apply line_wins_filled in E as [m Hm].
    exists l, m. split; [left|]. split; [assumption|].
    apply line_filled_head. assumption.
  - intros H. destruct (IH H) as (l' & m & Hin & Hf & Hw).
    exists l', m. split; [right; assumption|]. auto.
Qed.

Lemma first_win_Null squares ls l m :
  Typed.first_win squares ls = Null -> l ∈ ls -> ~ line_filled squares l m.
Proof.
  induction ls as [|l0 ls IH]; simpl; intros Hw Hin; [inversion Hin|].
  destruct (line_wins squares l0) eqn:E.
  - apply line_wins_filled in E as [m0 Hm0].
    rewrite (line_filled_head _ _ _ Hm0) in Hw. discriminate.
  - apply elem_of_cons in Hin as [->|Hin].
    + apply line_wins_false. assumption.
    + apply IH; assumption.
Qed.

(** The three cells of a line are distinct cells of the 3x3 board. *)
Lemma lines_increasing a b c :
  (a, b, c) ∈ Combine.lines -> (a < b < c)%nat /\ (c < 9)%nat.
Proof.
  unfold Combine.lines. intros Hin.
  repeat (apply elem_of_cons in Hin as [[= -> -> ->]|Hin]; [lia|]).
  inversion Hin.
Qed.

Lemma aget_Str_lookup (squares : squares_t) i s :
  aget squares i = Str s -> squares !! i = Some (Str s).
Proof.
  unfold aget. destruct (squares !! i) as [v|]; simpl; [|discriminate].
  intros ->. reflexivity.
Qed.

Lemma count_three (squares : squares_t) a b c sa sb sc :
  (a < b < c)%nat ->
  squares !! a = Some (Str sa) -> squares !! b = Some (Str sb) ->
  squares !! c = Some (Str sc) ->
  (3 <= length (List.filter counted squares))%nat.
Proof.
  intros Horder Ha Hb Hc.
  rewrite (count_split _ _ _ Hc). simpl.
  assert (Hb' : take c squares !! b = Some (Str sb))
    by (rewrite lookup_take_lt by lia; assumption).
  rewrite (count_split _ _ _ Hb'). simpl.
  assert (Ha' : take b (take c squares) !! a = Some (Str sa))
    by (rewrite !lookup_take_lt by lia; assumption).
  rewrite (count_split _ _ _ Ha'). simpl. lia.
Qed.

(** X4: whenever [calculateWinner] finds a winner, on any array, the
    winner is a marker that the array holds in the three cells of one of
    the eight lines, and [calculateTurns] is at least 3. *)
Theorem calculateWinner_three_turns (squares : squares_t) :
  Combine.calculateWinner squares <> Null ->
  (exists a b c m,
      (a, b, c) ∈ Combine.lines
      /\ m <> EmptyString
      /\ Combine.calculateWinner squares = Str m
      /\ aget squares a = Str m /\ aget squares b = Str m
      /\ aget squares c = Str m)
  /\ 3 <= calculateTurns squares.
Proof.
  rewrite winner_loop_first_win. intros Hw.
  destruct (first_win_filled squares Combine.lines Hw)
    as ([[a b] c] & m & Hin & Hf & Hres).
  destruct Hf as (Hne & Ha & Hb & Hc).
  split.
  - exists a, b, c, m. auto 10.
  - destruct (lines_increasing a b c Hin) as [Horder _].
    rewrite calculateTurns_counted.
    pose proof (count_three squares a b c m m m Horder
                  (aget_Str_lookup _ _ _ Ha) (aget_Str_lookup _ _ _ Hb)
                  (aget_Str_lookup _ _ _ Hc)).
    lia.
Qed.

Lemma calculateWinner_three_turns_witness :
  3 <= calculateTurns two_rows.
Proof.
  apply (calculateWinner_three_turns two_rows). vm_compute. discriminate.
Defined.

(** ** The history of a game *)

Lemma reachable_click state i state' :
  reachable state -> (i < 9)%nat -> squareClick state i = Some state' ->
  reachable state'.
Proof.
  intros Hreach Hi Hclick.
  destruct (reachable_renders state Hreach) as (squares & Hcur & Hlen & _).
  apply (reach_step state); [assumption|].
  apply (ui_click state squares i); [assumption|lia|assumption].
Qed.

Lemma reachable_opened : reachable opened.
Proof.
  apply (reachable_click initialState 4); [apply reach_init|lia|reflexivity].
Qed.

Lemma board_ok_falsy_Null (squares : squares_t) i :
  board_ok squares -> (i < length squares)%nat ->
  truthy (aget squares i) = false -> aget squares i = Null.
Proof.
  intros [_ Hcells] Hlt.
  destruct (lookup_lt_is_Some_2 squares i Hlt) as [v Hv].
  rewrite (aget_lookup _ _ _ Hv).
  rewrite Forall_forall in Hcells.
  destruct (Hcells v) as [->|[->| ->]];
    [apply list_elem_of_lookup; eauto|reflexivity|discriminate|discriminate].
Qed.

(** What an accepted click on a board of the data model has checked and
    what it plays. *)
Lemma handleClick_inside_inv xn (squares nextSquares : squares_t) i :
  board_ok squares -> (i < length squares)%nat ->
  handleClick xn squares i = Some nextSquares ->
  Combine.calculateWinner squares = Null
  /\ aget squares i = Null
  /\ nextSquares = <[i:=Str (player_of xn)]> squares.
Proof.
  intros Hok Hlt. unfold handleClick.
  destruct (truthy (aget squares i)) eqn:Hcell; [discriminate|].
  destruct (truthy (Combine.calculateWinner squares)) eqn:Hw; [discriminate|].
  simpl. intros [= <-]. split; [|split].
  - destruct (calculateWinner_result squares) as [HN|Hm]; [assumption|].
    apply truthy_marker in Hm. congruence.
  - apply board_ok_falsy_Null; assumption.
  - apply aset_inside. assumption.
Qed.

Lemma reachable_history_ok state :
  reachable state -> history_ok (history state).
Proof.
  intros Hreach. induction Hreach as [|state state' Hreach IH Hstep].
  - split; [reflexivity|].
    intros k a b Ha Hb. simpl in Hb. destruct k; discriminate.
  - destruct Hstep as [state squares i state' Hcur Hi Hclick
                      |state index Hindex]; [|assumption].
    unfold squareClick in Hclick. rewrite Hcur in Hclick.
    destruct (currentSquares_inv state squares Hcur) as [Hm Hlook].
    destruct (handleClick (xIsNext state) squares i) as [nextSquares|] eqn:E;
      injection Hclick as <-; [|assumption].
    assert (Hok : board_ok squares).
    { pose proof (reachable_boards_ok state Hreach) as Hall.
      rewrite Forall_forall in Hall. apply Hall.
      apply list_elem_of_lookup. eauto. }
    destruct (handleClick_inside_inv _ _ _ _ Hok Hi E) as (Hw & Hcell & ->).
    destruct IH as [Hzero Hsteps].
    rewrite handlePlay_inside by assumption. simpl.
    set (n := Z.to_nat (currentMove state)) in *.
    assert (Hn : (n < length (history state))%nat) by lia.
    assert (Hlen : length (take (S n) (history state)) = S n)
      by (rewrite length_take; lia).
    split.
    + rewrite lookup_app_l by lia. rewrite lookup_take_lt by lia. assumption.
    + intros k a b Ha Hb.
      assert (Hk : (k <= n)%nat).
      { apply lookup_lt_Some in Hb. rewrite length_app in Hb.
        simpl in Hb. lia. }
      rewrite lookup_app_l in Ha by lia. rewrite lookup_take_lt in Ha by lia.
      destruct (decide (k = n)) as [->|Hne].
      * rewrite lookup_app_r in Hb by lia. rewrite Hlen in Hb.
        replace (S n - S n)%nat with 0%nat in Hb by lia.
        simpl in Hb. injection Hb as <-.
        rewrite Hlook in Ha. injection Ha as <-.
        split; [assumption|]. exists i. split; [assumption|].
        rewrite xIsNext_even by lia. subst n. rewrite Z2Nat.id by lia.
        reflexivity.
      * rewrite lookup_app_l in Hb by lia.
        rewrite lookup_take_lt in Hb by lia.
        apply (Hsteps k); assumption.
Qed.

Lemma history_ok_turns (h : list squares_t) k a :
  history_ok h -> h !! k = Some a -> calculateTurns a = Z.of_nat k.
Proof.
  intros [Hzero Hsteps]. revert a. induction k as [|k IH]; intros a Ha.
  - rewrite Hzero in Ha. injection Ha as <-. reflexivity.
  - destruct (lookup_lt_is_Some_2 h k) as [p Hp].
    { apply lookup_lt_Some in Ha. lia. }
    destruct (Hsteps k p a Hp Ha) as (_ & i & Hi & ->).
    rewrite calculateTurns_insert_Null by assumption.
    rewrite (IH p Hp). lia.
Qed.

Lemma even_of_nat k : Z.even (Z.of_nat k) = Nat.even k.
Proof.
  assert (H : Z.even (Z.of_nat k) = Nat.even k
              /\ Z.odd (Z.of_nat k) = Nat.odd k).
  { induction k as [|k [IHe IHo]]; [split; reflexivity|].
    rewrite Nat2Z.inj_succ, Z.even_succ, Z.odd_succ.
    rewrite Nat.even_succ, Nat.odd_succ. auto. }
  apply H.
Qed.

(** X5: in every state the page reaches, the history starts with the
    empty board, and each later entry is its predecessor with one empty
    cell taken: by ["X"] after an entry of even index, by ["O"] after an
    entry of odd index. *)
Theorem reachable_history_moves (state : GameState) :
  reachable state ->
  history state !! 0%nat = Some empty_board
  /\ forall k (a b : squares_t),
      history state !! k = Some a -> history state !! S k = Some b ->
      exists i, (i < 9)%nat
                /\ aget a i = Null
                /\ aget b i = Str (if Nat.even k then "X" else "O")
                /\ (forall j, j <> i -> aget b j = aget a j)
                /\ length b = length a.
Proof.
  intros Hreach.
  destruct (reachable_history_ok state Hreach) as [Hzero Hsteps].
  split; [assumption|].
  intros k a b Ha Hb.
  destruct (Hsteps k a b Ha Hb) as (_ & i & Hi & ->).
  pose proof (aget_Null_lt _ _ Hi) as Hlt.
  assert (Hok : board_ok a).
  { pose proof (reachable_boards_ok state Hreach) as Hall.
    rewrite Forall_forall in Hall. apply Hall.
    apply list_elem_of_lookup. eauto. }
  destruct Hok as [Hlen _].
  exists i. split; [lia|]. split; [assumption|]. split; [|split].
  - unfold aget. rewrite list_lookup_insert_eq by assumption. simpl.
    rewrite even_of_nat. reflexivity.
  - intros j Hj. unfold aget. rewrite list_lookup_insert_ne by auto.
    reflexivity.
  - apply length_insert.
Qed.

Lemma reachable_history_moves_witness :
  history opened !! 0%nat = Some empty_board
  /\ forall k (a b : squares_t),
      history opened !! k = Some a -> history opened !! S k = Some b ->
      exists i, (i < 9)%nat
                /\ aget a i = Null
                /\ aget b i = Str (if Nat.even k then "X" else "O")
                /\ (forall j, j <> i -> aget b j = aget a j)
                /\ length b = length a.
Proof. apply (reachable_history_moves opened). apply reachable_opened. Defined.

(** X6: in every state the page reaches, the entry of index [k] has
    exactly [k] turns played; so the history has at most ten entries and
    [currentMove] is at most 9. *)
Theorem reachable_turns_index (state : GameState) :
  reachable state ->
  (forall k (a : squares_t),
      history state !! k = Some a -> calculateTurns a = Z.of_nat k)
  /\ (length (history state) <= 10)%nat
  /\ currentMove state <= 9.
Proof.
  intros Hreach.
  pose proof (reachable_history_ok state Hreach) as Hh.
  assert (Hturns : forall k (a : squares_t),
             history state !! k = Some a -> calculateTurns a = Z.of_nat k).
  { intros k a Ha. apply (history_ok_turns (history state)); assumption. }
  assert (Hlen : (length (history state) <= 10)%nat).
  { destruct (decide (length (history state) <= 10)%nat) as [|Hgt];
      [assumption|].
    destruct (lookup_lt_is_Some_2 (history state) 10) as [a Ha]; [lia|].
    pose proof (Hturns 10%nat a Ha) as Ht.
    pose proof (reachable_boards_ok state Hreach) as Hall.
    rewrite Forall_forall in Hall.
    destruct (Hall a) as [Hlen9 _]; [apply list_elem_of_lookup; eauto|].
    rewrite calculateTurns_counted in Ht.
    pose proof (List.filter_length_le counted a). lia. }
  split; [assumption|]. split; [assumption|].
  destruct (reachable_inv state Hreach) as [_ Hm]. lia.
Qed.

Lemma reachable_turns_index_witness :
  calculateTurns (<[4%nat:=X]> empty_board) = 1.
Proof.
  destruct (reachable_turns_index opened reachable_opened) as (H & _).
  apply (H 1%nat). reflexivity.
Defined.

(** X7: in every state the page reaches, an entry with a winner is the
    last entry of the history: no move was ever played on a won board. *)
Theorem reachable_winner_last (state : GameState) k (a : squares_t) :
  reachable state ->
  history state !! k = Some a ->
  Combine.calculateWinner a <> Null ->
  S k = length (history state).
Proof.
  intros Hreach Ha Hw.
  destruct (reachable_history_ok state Hreach) as [_ Hsteps].
  pose proof (lookup_lt_Some _ _ _ Ha) as Hlt.
  destruct (decide (S k < length (history state))%nat) as [Hmore|]; [|lia].
  destruct (lookup_lt_is_Some_2 (history state) (S k) Hmore) as [b Hb].
  destruct (Hsteps k a b Ha Hb) as [Hnone _]. contradiction.
Qed.

(** X8: on a board of the history of a reachable state, a line filled
    with a marker decides the winner: [calculateWinner] returns the
    marker of that line, whichever filled line it is. *)
Theorem reachable_filled_line_wins (state : GameState) k (b : squares_t) l m :
  reachable state ->
  history state !! k = Some b ->
  l ∈ Combine.lines ->
  line_filled b l m ->
  Combine.calculateWinner b = Str m /\ Typed.calculateWinner b = Str m.
Proof.
  intros Hreach Hb Hin Hfilled.
  destruct (reachable_history_ok state Hreach) as [Hzero Hsteps].
  assert (Hone : exists p, forall l' m',
               l' ∈ Combine.lines -> line_filled b l' m' -> m' = p).
  { destruct k as [|k].
    - rewrite Hzero in Hb. injection Hb as <-.
      exists m. intros [[x y] z] m' _ (_ & Hx & _).
      apply aget_Str_lookup in Hx. unfold empty_board in Hx.
      apply lookup_replicate in Hx as [Hx _]. discriminate.
    - destruct (lookup_lt_is_Some_2 (history state) k) as [a Ha].
      { apply lookup_lt_Some in Hb. lia. }
      destruct (Hsteps k a b Ha Hb) as (Hnone & i & Hi & ->).
      pose proof (aget_Null_lt _ _ Hi) as Hlt.
      exists (player_of (Z.even (Z.of_nat k))).
      intros [[x y] z] m' Hin' (Hne & Hx & Hy & Hz).
      assert (Hat : forall j, j = i ->
                 aget (<[i:=Str (player_of (Z.even (Z.of_nat k)))]> a) j
                 = Str m' -> m' = player_of (Z.even (Z.of_nat k))).
      { intros j -> Hj. unfold aget in Hj.
        rewrite list_lookup_insert_eq in Hj by assumption.
        simpl in Hj. congruence. }
      destruct (decide (x = i)) as [Ex|Nx]; [apply (Hat x Ex Hx)|].
      destruct (decide (y = i)) as [Ey|Ny]; [apply (Hat y Ey Hy)|].
      destruct (decide (z = i)) as [Ez|Nz]; [apply (Hat z Ez Hz)|].
      exfalso.
      rewrite winner_loop_first_win in Hnone.
      apply (first_win_Null a Combine.lines (x, y, z) m' Hnone Hin').
      unfold aget in Hx, Hy, Hz.
      rewrite list_lookup_insert_ne in Hx, Hy, Hz by auto.
      repeat split; assumption. }
  destruct Hone as [p Hp].
  destruct (first_filled_split b Combine.lines)
    as (pre & l1 & post & m1 & Hsplit & Hpre & Hl1); [eauto|].
  assert (Hl1in : l1 ∈ Combine.lines).
  { rewrite Hsplit. apply elem_of_app. right. left. }
  rewrite (Hp l m Hin Hfilled). rewrite <- (Hp l1 m1 Hl1in Hl1).
  change (Typed.calculateWinner b) with (Typed.first_win b Combine.lines).
  rewrite winner_loop_first_win, Hsplit.
  split; apply first_win_first; assumption.
Qed.

Lemma reachable_clicks cells : forall state state',
  reachable state -> Forall (fun i => (i < 9)%nat) cells ->
  clicks state cells = Some state' -> reachable state'.
Proof.
  induction cells as [|i cells IH]; simpl; intros state state' Hreach Hall.
  - intros [= <-]. assumption.
  - apply Forall_cons in Hall as [Hi Hall].
    destruct (squareClick state i) as [state1|] eqn:E; [|discriminate].
    apply IH; [|assumption].
    apply (reachable_click state i); assumption.
Qed.

Lemma reachable_won : reachable won.
Proof.
  apply (reachable_clicks top_row_game initialState);
    [apply reach_init| |reflexivity].
  unfold top_row_game. repeat (apply List.Forall_cons; [lia|]).
  apply List.Forall_nil.
Qed.

Lemma reachable_winner_last_witness :
  6%nat = length (history won).
Proof.
  apply (reachable_winner_last won 5
           [X; X; X; O; O; Null; Null; Null; Null]).
  - apply reachable_won.
  - reflexivity.
  - vm_compute. discriminate.
Defined.

Lemma reachable_filled_line_wins_witness :
  Combine.calculateWinner [X; X; X; O; O; Null; Null; Null; Null] = X
  /\ Typed.calculateWinner [X; X; X; O; O; Null; Null; Null; Null] = X.
Proof.
  apply (reachable_filled_line_wins won 5 _ (0, 1, 2)%nat "X"%string).
  - apply reachable_won.
  - reflexivity.
  - unfold Combine.lines. apply list_elem_of_here.
  - unfold line_filled. repeat split. discriminate.
Defined.

(** ** [handlePlay] and [jumpTo] at and beyond the ends of the history *)

(** X9: whatever the store holds, also an empty history or an index
    outside it, [handlePlay b] leaves a history whose last entry is [b],
    the index on that entry, and [b] displayed. *)
Theorem handlePlay_displays (state : GameState) (b : squares_t) :
  List.last (history (handlePlay state b)) [] = b
  /\ Z.of_nat (length (history (handlePlay state b)))
     = currentMove (handlePlay state b) + 1
  /\ (1 <= length (history (handlePlay state b)))%nat
  /\ currentSquares (handlePlay state b) = Some b.
Proof.
  unfold handlePlay, setCurrentMove, setHistory, currentSquares. simpl.
  set (kept := slice0 (history state) (currentMove state + 1)).
  rewrite length_app. cbn [length].
  split; [apply List.last_last|]. split; [lia|]. split; [lia|].
  destruct (Z.leb_spec 0 (Z.of_nat (length kept + 1) - 1)) as [_|]; [|lia].
  rewrite lookup_app_r by lia.
  replace (Z.to_nat (Z.of_nat (length kept + 1) - 1) - length kept)%nat
    with 0%nat by lia.
  reflexivity.
Qed.

(** X10: with the index on the last entry or beyond it, [handlePlay]
    drops nothing: the new board is appended to the whole history. *)
Theorem handlePlay_at_end (state : GameState) (b : squares_t) :
  Z.of_nat (length (history state)) - 1 <= currentMove state ->
  history (handlePlay state b) = history state ++ [b]
  /\ currentMove (handlePlay state b) = Z.of_nat (length (history state)).
Proof.
  intros Hm. unfold handlePlay, setCurrentMove, setHistory, slice0. simpl.
  destruct (Z.ltb_spec (currentMove state + 1) 0) as [|_]; [lia|].
  rewrite take_ge by lia.
  split; [reflexivity|]. rewrite length_app. simpl. lia.
Qed.

Lemma handlePlay_at_end_witness :
  history (handlePlay opened two_rows) = history opened ++ [two_rows]
  /\ currentMove (handlePlay opened two_rows)
     = Z.of_nat (length (history opened)).
Proof. apply handlePlay_at_end. simpl. lia. Defined.

(** X11: [jumpTo] does not check its argument: after a jump the board
    renders exactly when the index lies inside the history, and outside
    it no square can be clicked. *)
Theorem jumpTo_unchecked (state : GameState) (m : Z) :
  (currentSquares (jumpTo state m) = None
   <-> m < 0 \/ Z.of_nat (length (history state)) <= m)
  /\ (currentSquares (jumpTo state m) = None ->
      forall i, squareClick (jumpTo state m) i = None).
Proof.
  split.
  - unfold currentSquares, jumpTo, setCurrentMove. simpl.
    destruct (Z.leb_spec 0 m) as [Hle|Hneg].
    + rewrite lookup_ge_None. lia.
    + split; [intros _; lia|reflexivity].
  - intros Hnone i. unfold squareClick. rewrite Hnone. reflexivity.
Qed.

(** X12: time travel.  After a move played at an index inside the
    history, a jump to any index up to the old one displays the board
    that was there before the move, a jump to the next index displays
    the new board, and no jump changes the history. *)
Theorem jumpTo_after_handlePlay (state : GameState) (b : squares_t) (j : Z) :
  0 <= currentMove state < Z.of_nat (length (history state)) ->
  0 <= j <= currentMove state ->
  currentSquares (jumpTo (handlePlay state b) j)
  = currentSquares (jumpTo state j)
  /\ currentSquares (jumpTo (handlePlay state b) (currentMove state + 1))
     = Some b
  /\ history (jumpTo (jumpTo (handlePlay state b) j) (currentMove state + 1))
     = history (handlePlay state b).
Proof.
  intros Hm Hj. rewrite handlePlay_inside by assumption.
  unfold currentSquares, jumpTo, setCurrentMove. simpl.
  destruct (Z.leb_spec 0 j) as [_|]; [|lia].
  destruct (Z.leb_spec 0 (currentMove state + 1)) as [_|]; [|lia].
  assert (Hlen : length (take (S (Z.to_nat (currentMove state)))
                           (history state))
                 = S (Z.to_nat (currentMove state)))
    by (rewrite length_take; lia).
  split; [|split; [|reflexivity]].
  - rewrite lookup_app_l by lia. apply lookup_take_lt. lia.
  - rewrite lookup_app_r by lia. rewrite Hlen.
    replace (Z.to_nat (currentMove state + 1)
             - S (Z.to_nat (currentMove state)))%nat with 0%nat by lia.
    reflexivity.
Qed.

Lemma jumpTo_after_handlePlay_witness :
  currentSquares (jumpTo (handlePlay (jumpTo won 2) drawn) 1)
  = currentSquares (jumpTo (jumpTo won 2) 1)
  /\ currentSquares (jumpTo (handlePlay (jumpTo won 2) drawn) (2 + 1))
     = Some drawn
  /\ history (jumpTo (jumpTo (handlePlay (jumpTo won 2) drawn) 1) (2 + 1))
     = history (handlePlay (jumpTo won 2) drawn).
Proof.
  apply (jumpTo_after_handlePlay (jumpTo won 2) drawn 1).
  - simpl. lia.
  - simpl. lia.
Defined.

(** ** The setters of the store *)


(** X14: the setters do not validate: with an empty history in the store
    no board renders and the list of buttons is empty, whatever the
    index. *)
Theorem setHistory_empty (state : GameState) :
  currentSquares (setHistory (inl []) state) = None
  /\ (forall i, squareClick (setHistory (inl []) state) i = None)
  /\ moveButtons (setHistory (inl []) state) = []
  /\ ~ state_ok (setHistory (inl []) state).
Proof.
  assert (Hnone : currentSquares (setHistory (inl []) state) = None).
  { unfold currentSquares, setHistory. simpl.
    destruct (0 <=? currentMove state); reflexivity. }
  split; [assumption|]. split; [|split].
  - intros i. unfold squareClick. rewrite Hnone. reflexivity.
  - reflexivity.
  - unfold state_ok, setHistory. simpl. lia.
Qed.

(** ** The buttons of the history *)



(** X16: the labels tell the entries apart: the first button reads
    "Go to game start", and two buttons with the same label are the same
    button. *)
Theorem description_inj (i j : nat) :
  description 0 = "Go to game start"
  /\ (description i = description j -> i = j).
Proof.
  split; [reflexivity|].
  unfold description. destruct i as [|i], j as [|j]; simpl; intros H.
  - reflexivity.
  - discriminate.
  - discriminate.
  - injection H as H. simpl in H. exact (inj pretty _ _ H).
Qed.

Lemma description_inj_witness :
  description 0 = "Go to game start" /\ 7%nat = (3 + 4)%nat.
Proof.
  destruct (description_inj 7 (3 + 4)) as [Hstart Hinj].
  split; [exact Hstart|]. apply Hinj. reflexivity.
Defined.

(** ** The status line and the clicks *)

Lemma cells_full_or_empty (squares : squares_t) :
  Forall (fun v => v = Null \/ v = X \/ v = O) squares ->
  length (List.filter counted squares) = length squares
  \/ exists i, squares !! i = Some Null.
Proof.
  induction 1 as [|v squares Hv _ IH]; [left; reflexivity|].
  destruct Hv as [->|Hv].
  - right. exists 0%nat. reflexivity.
  - destruct IH as [IH|[i Hi]].
    + left. destruct Hv as [->| ->]; simpl; rewrite IH; reflexivity.
    + right. exists (S i). assumption.
Qed.

Lemma board_ok_empty_cell (squares : squares_t) :
  board_ok squares -> calculateTurns squares <> 9 ->
  exists i, (i < 9)%nat /\ aget squares i = Null.
Proof.
  intros [Hlen Hcells] Hturns.
  destruct (cells_full_or_empty squares Hcells) as [Hfull|[i Hi]].
  - rewrite calculateTurns_counted, Hfull, Hlen in Hturns. contradiction.
  - exists i. split; [|apply aget_lookup; assumption].
    apply lookup_lt_Some in Hi. lia.
Qed.

(** X17: in the second listing, on a board of the data model, the status
    reads "Next player: ..." exactly when some cell of the board still
    accepts a click; it names the marker that the click will place. *)
Theorem status2_next_iff_clickable xn (squares : squares_t) :
  board_ok squares ->
  (status2 xn squares = "Next player: " +:+ player_of xn
   <-> exists i nextSquares,
        (i < 9)%nat
        /\ handleClick xn squares i = Some nextSquares
        /\ aget nextSquares i = Str (player_of xn)).
Proof.
  intros Hok. unfold status2.
  change (Typed.calculateWinner squares)
    with (Combine.calculateWinner squares).
  split.
  - unfold Typed.calculateStatus.
    destruct (truthy (Combine.calculateWinner squares)) eqn:Hw;
      [simpl; discriminate|].
    destruct (Z.eqb_spec (calculateTurns squares) 9) as [|Hturns];
      [simpl; discriminate|].
    intros _.
    destruct (board_ok_empty_cell squares Hok Hturns) as (i & Hi & Hcell).
    exists i, (<[i:=Str (player_of xn)]> squares).
    split; [assumption|]. split.
    + apply handleClick_empty; [assumption|].
      destruct (calculateWinner_result squares) as [HN|Hm]; [assumption|].
      apply truthy_marker in Hm. congruence.
    + unfold aget. destruct Hok as [Hlen _].
      rewrite list_lookup_insert_eq by lia. reflexivity.
  - intros (i & nextSquares & Hi & Hclick & _).
    destruct Hok as [Hlen Hcells].
    destruct (handleClick_inside_inv xn squares nextSquares i
                (conj Hlen Hcells) ltac:(lia) Hclick) as (Hw & Hcell & _).
    rewrite Hw. apply Typed_status_next; [reflexivity|].
    intros Hturns.
    destruct (full_board_marker squares i (conj Hlen Hcells) Hturns Hi)
      as (s & Hs & _).
    congruence.
Qed.

Lemma status2_next_iff_clickable_witness :
  status2 true empty_board = "Next player: X"
  <-> exists i nextSquares,
      (i < 9)%nat
      /\ handleClick true empty_board i = Some nextSquares
      /\ aget nextSquares i = X.
Proof.
  apply (status2_next_iff_clickable true empty_board).
  split; [reflexivity|]. unfold empty_board. simpl.
  repeat (apply List.Forall_cons; [auto|]). apply List.Forall_nil.
Defined.

(** X18: in every state the page reaches, the status of the first
    listing reads "Draw" exactly at the start of the game, the entry of
    index 0. *)
Theorem reachable_status1_draw (state : GameState) (squares : squares_t) :
  reachable state ->
  currentSquares state = Some squares ->
  (status1 (xIsNext state) squares = "Draw" <-> currentMove state = 0).
Proof.
  intros Hreach Hcur.
  destruct (currentSquares_inv state squares Hcur) as [Hm Hlook].
  pose proof (reachable_history_ok state Hreach) as Hh.
  pose proof (history_ok_turns _ _ _ Hh Hlook) as Hturns.
  rewrite Z2Nat.id in Hturns by lia.
  unfold status1, Combine.calculateStatus. rewrite Hturns. split.
  - destruct (truthy (Combine.calculateWinner squares)); simpl.
    + discriminate.
    + destruct (Z.eqb_spec (currentMove state) 0); [auto|discriminate].
  - intros Hzero. rewrite Hzero in Hlook |- *. destruct Hh as [Hstart _].
    change (Z.to_nat 0) with 0%nat in Hlook.
    rewrite Hstart in Hlook. injection Hlook as <-.
    reflexivity.
Qed.

Lemma reachable_status1_draw_witness :
  status1 (xIsNext opened) (<[4%nat:=X]> empty_board) = "Draw"
  <-> currentMove opened = 0.
Proof.
  apply (reachable_status1_draw opened).
  - apply reachable_opened.
  - reflexivity.
Defined.

(** X19: in every state the page reaches, the status of the second
    listing reads "Draw" exactly when nine moves are on the displayed
    board and it has no winner. *)
Theorem reachable_status2_draw (state : GameState) (squares : squares_t) :
  reachable state ->
  currentSquares state = Some squares ->
  (status2 (xIsNext state) squares = "Draw"
   <-> currentMove state = 9 /\ Typed.calculateWinner squares = Null).
Proof.
  intros Hreach Hcur.
  destruct (currentSquares_inv state squares Hcur) as [Hm Hlook].
  pose proof (reachable_history_ok state Hreach) as Hh.
  pose proof (history_ok_turns _ _ _ Hh Hlook) as Hturns.
  rewrite Z2Nat.id in Hturns by lia.
  unfold status2, Typed.calculateStatus. rewrite Hturns.
  change (Typed.calculateWinner squares)
    with (Combine.calculateWinner squares).
  split.
  - destruct (truthy (Combine.calculateWinner squares)) eqn:Hw; simpl.
    + discriminate.
    + destruct (Z.eqb_spec (currentMove state) 9); [|discriminate].
      intros _. split; [assumption|].
      destruct (calculateWinner_result squares) as [HN|Hmk]; [assumption|].
      apply truthy_marker in Hmk. congruence.
  - intros [-> ->]. reflexivity.
Qed.

Lemma reachable_status2_draw_witness :
  status2 (xIsNext opened) (<[4%nat:=X]> empty_board) = "Draw"
  <-> currentMove opened = 9
      /\ Typed.calculateWinner (<[4%nat:=X]> empty_board) = Null.
Proof.
  apply (reachable_status2_draw opened).
  - apply reachable_opened.
  - reflexivity.
Defined.

(** X20: [handleClick] does not check its index: on a board without a
    winner a click past the end of the array is accepted and grows the
    array up to that index, with holes between the old end and the new
    marker. *)
Theorem handleClick_past_end xn (squares : squares_t) (i : nat) :
  (length squares <= i)%nat ->
  Combine.calculateWinner squares = Null ->
  exists nextSquares,
    handleClick xn squares i = Some nextSquares
    /\ length nextSquares = S i
    /\ aget nextSquares i = Str (player_of xn)
    /\ (forall j, (j < length squares)%nat ->
                  aget nextSquares j = aget squares j)
    /\ (forall j, (length squares <= j < i)%nat ->
                  aget nextSquares j = Undefined).
Proof.
  intros Hge Hw. exists (aset squares i (Str (player_of xn))).
  split.
  { unfold handleClick. rewrite Hw, aget_ge by assumption. reflexivity. }
  split.
  { unfold aset. rewrite decide_False by lia.
    rewrite !length_app, length_replicate. simpl. lia. }
  split; [apply aget_aset_eq|].
  unfold aset. rewrite decide_False by lia. split.
  - intros j Hj. unfold aget. rewrite lookup_app_l by assumption.
    reflexivity.
  - intros j Hj. unfold aget. rewrite lookup_app_r by lia.
    rewrite lookup_app_l by (rewrite length_replicate; lia).
    rewrite lookup_replicate_2 by lia. reflexivity.
Qed.

Lemma handleClick_past_end_witness :
  exists nextSquares,
    handleClick false [X; Null] 4 = Some nextSquares
    /\ length nextSquares = 5%nat
    /\ aget nextSquares 4 = O
    /\ (forall j, (j < 2)%nat -> aget nextSquares j = aget [X; Null] j)
    /\ (forall j, (2 <= j < 4)%nat -> aget nextSquares j = Undefined).
Proof.
  apply (handleClick_past_end false [X; Null] 4).
  - simpl. lia.
  - reflexivity.
Defined.

(** ** The page always renders *)

(** X21: in every state the page reaches, every entry of the history is
    a board of the data model, the displayed entry exists, and a click
    on any of its nine squares is handled and leads to a state of the
    same kind. *)
Theorem reachable_page_renders (state : GameState) :
  reachable state ->
  Forall board_ok (history state)
  /\ (exists squares,
         currentSquares state = Some squares /\ board_ok squares)
  /\ (forall i, (i < 9)%nat ->
        exists state', squareClick state i = Some state'
                       /\ reachable state').
Proof.
  intros Hreach.
  split; [apply reachable_boards_ok; assumption|].
  destruct (reachable_renders state Hreach) as (squares & Hcur & Hok).
  split; [eauto|].
  intros i Hi.
  destruct (squareClick state i) as [state'|] eqn:E.
  - exists state'. split; [reflexivity|].
    apply (reachable_click state i); assumption.
  - unfold squareClick in E. rewrite Hcur in E. discriminate.
Qed.

Lemma reachable_page_renders_witness :
  Forall board_ok (history won)
  /\ (exists squares, currentSquares won = Some squares /\ board_ok squares)
  /\ (forall i, (i < 9)%nat ->
        exists state', squareClick won i = Some state' /\ reachable state').
Proof. apply (reachable_page_renders won). apply reachable_won. Defined.
